(** * SnowflakeHandler: the batched log-forwarding handler of
      [backend/snowflake_logger.py]

    A shallow embedding of the handler class: its attributes are a record,
    its methods are computations in a small state-and-exception monad, and
    every call that leaves the process (the connector, the logging calls,
    [time.sleep]) is recorded in a trace.  Wall-clock readings (Python
    floats) are carried as rationals. *)

From Stdlib Require Import ZArith QArith String List Bool Lia.
From stdpp Require Import base strings gmap list pretty.
Import ListNotations.

Local Open Scope string_scope.
Local Open Scope list_scope.
Local Open Scope Z_scope.

(** ** Python values and exceptions *)

(** The exceptions that occur in the module; all of them derive from
    [Exception], so an [except Exception] clause catches each one. *)
Inductive Exn :=
| ImportError
| ValueError
| TypeError
| Full
| Empty
| AttributeError
| DatabaseError.

(** A call returns, raises, or waits on a condition that only another
    thread can establish. *)
Inductive Outcome (A : Type) :=
| Ret (a : A)
| Raise (e : Exn)
| Blocked.
Arguments Ret {A} a.
Arguments Raise {A} e.
Arguments Blocked {A}.

(** Values stored in an attribute dictionary.  [PyObj] carries what
    [str()] gives on the object, [None] when its [__str__] raises. *)
Inductive PyVal :=
| PyNone
| PyStr (s : string)
| PyInt (z : Z)
| PyObj (shown : option string).

Definition str (v : PyVal) : option string :=
  match v with
  | PyNone => Some "None"
  | PyStr s => Some s
  | PyInt z => Some (pretty z)
  | PyObj shown => shown
  end.

(** Truth value of an optional string argument ([not password]). *)
Definition truthy (o : option string) : bool :=
  match o with
  | Some s => negb (String.eqb s "")
  | None => false
  end.

(** ** Event model *)

(** [record.exc_info]: the name of the exception class, [str()] of the
    exception value, and the lines of [traceback.format_exception]. *)
Record ExcInfo := {
  ei_type : option string;
  ei_value : option string;
  ei_lines : list string
}.

(** A [logging.LogRecord].  [getMessage] is the result of the library
    method of that name, which interpolates [msg % args] and raises when
    the arguments do not fit the format. *)
Record LogRecord := {
  name : string;
  levelname : string;
  created : Q;
  getMessage : string + Exn;
  exc_info : option ExcInfo;
  process : option Z;
  threadName : option string;
  __dict__ : list (string * PyVal)
}.

(** The [metadata] cell of a row: absent, the dict built by
    [_format_record], or the JSON text put in its place by the flush. *)
Inductive Metadata :=
| MetaNone
| MetaDict (d : list (string * string))
| MetaJson (s : string).

Record Row := {
  log_timestamp : Q;
  level : string;
  logger_name : string;
  message : string;
  agent_id : PyVal;
  endpoint : PyVal;
  execution_context : PyVal;
  exception_type : option string;
  exception_message : option string;
  stack_trace : option string;
  metadata : Metadata;
  host : string;
  process_id : option Z;
  thread_name : option string
}.

Definition set_metadata (m : Metadata) (row : Row) : Row :=
  {| log_timestamp := log_timestamp row; level := level row;
     logger_name := logger_name row; message := message row;
     agent_id := agent_id row; endpoint := endpoint row;
     execution_context := execution_context row;
     exception_type := exception_type row;
     exception_message := exception_message row;
     stack_trace := stack_trace row; metadata := m; host := host row;
     process_id := process_id row; thread_name := thread_name row |}.

(** ** queue.Queue *)

Module Queue.

Record t := {
  maxsize : Z;
  queue : list LogRecord;
  unfinished_tasks : nat
}.

(** [queue.Queue(maxsize)]; a [maxsize] of zero or less is unbounded. *)
Definition new (maxsize : Z) : t :=
  {| maxsize := maxsize; queue := []; unfinished_tasks := 0 |}.

Definition qsize (q : t) : Z := Z.of_nat (length (queue q)).

Definition full (q : t) : bool :=
  (0 <? maxsize q) && (maxsize q <=? qsize q).

(** [put(item, block)] with no timeout. *)
Definition put (item : LogRecord) (block : bool) (q : t) : Outcome t :=
  if full q then
    if block then Blocked else Raise Full
  else
    Ret {| maxsize := maxsize q; queue := queue q ++ [item];
           unfinished_tasks := S (unfinished_tasks q) |}.

Definition put_nowait (item : LogRecord) (q : t) : Outcome t :=
  put item false q.

(** [get(timeout=...)] once the timeout has run out: the head of the
    queue, or [Empty]. *)
Definition get (q : t) : Outcome (LogRecord * t) :=
  match queue q with
  | [] => Raise Empty
  | item :: rest =>
      Ret (item, {| maxsize := maxsize q; queue := rest;
                    unfinished_tasks := unfinished_tasks q |})
  end.

Definition task_done (q : t) : Outcome t :=
  match unfinished_tasks q with
  | O => Raise ValueError
  | S n => Ret {| maxsize := maxsize q; queue := queue q;
                  unfinished_tasks := n |}
  end.

End Queue.

(** ** What the handler does to the outside *)

Definition Conn := nat.

Inductive Level := DEBUG | INFO | WARNING | ERROR.

(** The messages of the module's own [logging] calls. *)
Inductive LogMsg :=
| Connected (auth_method database schema : string)
| FailedToConnect (e : Exn)
| WorkerStarted
| ErrorInWorker (e : Exn)
| CannotFlush (n : nat)
| Flushed (n : nat)
| FailedToFlush (e : Exn)
| ShuttingDown.

Inductive Event :=
| Log (lvl : Level) (msg : LogMsg)
| Connect (conn_params : gmap string string)
| Cursor (c : Conn)
| ExecuteMany (c : Conn) (insert_sql : string) (rows : list Row)
| CursorClose (c : Conn)
| ConnClose (c : Conn)
| Sleep (secs : Q)
| ThreadStart
| HandleError (record_name : string).

(** How the remote end answers the [n]-th use of a cursor. *)
Inductive SinkReply :=
| SinkOk
| CursorRaises
| ExecuteRaises
| CloseRaises.

(** The environment of a run: whether the connector package imported,
    the host name, the answers of the remote end by call number, and
    [json.dumps]. *)
Record Env := {
  SNOWFLAKE_AVAILABLE : bool;
  gethostname : string;
  connect_reply : nat -> bool;
  sink_reply : nat -> SinkReply;
  json_dumps : Metadata -> string
}.

(** ** The handler object *)

(** The thread running [_worker]: not created, created and not yet in
    the loop, in the loop with its local [last_flush], or returned. *)
Inductive Worker :=
| NoThread
| Spawned
| Looping (last_flush : Q)
| Returned.

Record State := {
  (* connection parameters and batching configuration *)
  account : string;
  user : string;
  password : option string;
  token : option string;
  database : string;
  schema : string;
  warehouse : string;
  role : option string;
  table_name : string;
  batch_size : Z;
  flush_interval : Q;
  hostname : string;
  (* mutable attributes *)
  log_queue : Queue.t;
  connection : option Conn;
  batch : list Row;
  running : bool;
  worker_thread : Worker;
  (* the outside *)
  connects : nat;
  flushes : nat;
  trace : list Event
}.

Definition set_log_queue (q : Queue.t) (st : State) : State :=
  {| account := account st; user := user st; password := password st;
     token := token st; database := database st; schema := schema st;
     warehouse := warehouse st; role := role st;
     table_name := table_name st; batch_size := batch_size st;
     flush_interval := flush_interval st; hostname := hostname st;
     log_queue := q; connection := connection st; batch := batch st;
     running := running st; worker_thread := worker_thread st;
     connects := connects st; flushes := flushes st; trace := trace st |}.

Definition set_connection (c : option Conn) (st : State) : State :=
  {| account := account st; user := user st; password := password st;
     token := token st; database := database st; schema := schema st;
     warehouse := warehouse st; role := role st;
     table_name := table_name st; batch_size := batch_size st;
     flush_interval := flush_interval st; hostname := hostname st;
     log_queue := log_queue st; connection := c; batch := batch st;
     running := running st; worker_thread := worker_thread st;
     connects := connects st; flushes := flushes st; trace := trace st |}.

Definition set_batch (b : list Row) (st : State) : State :=
  {| account := account st; user := user st; password := password st;
     token := token st; database := database st; schema := schema st;
     warehouse := warehouse st; role := role st;
     table_name := table_name st; batch_size := batch_size st;
     flush_interval := flush_interval st; hostname := hostname st;
     log_queue := log_queue st; connection := connection st; batch := b;
     running := running st; worker_thread := worker_thread st;
     connects := connects st; flushes := flushes st; trace := trace st |}.

Definition set_running (r : bool) (st : State) : State :=
  {| account := account st; user := user st; password := password st;
     token := token st; database := database st; schema := schema st;
     warehouse := warehouse st; role := role st;
     table_name := table_name st; batch_size := batch_size st;
     flush_interval := flush_interval st; hostname := hostname st;
     log_queue := log_queue st; connection := connection st;
     batch := batch st; running := r; worker_thread := worker_thread st;
     connects := connects st; flushes := flushes st; trace := trace st |}.

Definition set_worker_thread (w : Worker) (st : State) : State :=
  {| account := account st; user := user st; password := password st;
     token := token st; database := database st; schema := schema st;
     warehouse := warehouse st; role := role st;
     table_name := table_name st; batch_size := batch_size st;
     flush_interval := flush_interval st; hostname := hostname st;
     log_queue := log_queue st; connection := connection st;
     batch := batch st; running := running st; worker_thread := w;
     connects := connects st; flushes := flushes st; trace := trace st |}.

Definition set_connects (n : nat) (st : State) : State :=
  {| account := account st; user := user st; password := password st;
     token := token st; database := database st; schema := schema st;
     warehouse := warehouse st; role := role st;
     table_name := table_name st; batch_size := batch_size st;
     flush_interval := flush_interval st; hostname := hostname st;
     log_queue := log_queue st; connection := connection st;
     batch := batch st; running := running st;
     worker_thread := worker_thread st;
     connects := n; flushes := flushes st; trace := trace st |}.

Definition set_flushes (n : nat) (st : State) : State :=
  {| account := account st; user := user st; password := password st;
     token := token st; database := database st; schema := schema st;
     warehouse := warehouse st; role := role st;
     table_name := table_name st; batch_size := batch_size st;
     flush_interval := flush_interval st; hostname := hostname st;
     log_queue := log_queue st; connection := connection st;
     batch := batch st; running := running st;
     worker_thread := worker_thread st;
     connects := connects st; flushes := n; trace := trace st |}.

Definition set_trace (t : list Event) (st : State) : State :=
  {| account := account st; user := user st; password := password st;
     token := token st; database := database st; schema := schema st;
     warehouse := warehouse st; role := role st;
     table_name := table_name st; batch_size := batch_size st;
     flush_interval := flush_interval st; hostname := hostname st;
     log_queue := log_queue st; connection := connection st;
     batch := batch st; running := running st;
     worker_thread := worker_thread st;
     connects := connects st; flushes := flushes st; trace := t |}.

(** ** The monad of method bodies *)

Definition M (A : Type) : Type := State -> Outcome A * State.

Definition ret {A} (a : A) : M A := fun st => (Ret a, st).

Definition raise {A} (e : Exn) : M A := fun st => (Raise e, st).

Definition bind {A B} (m : M A) (k : A -> M B) : M B :=
  fun st =>
    match m st with
    | (Ret a, st') => k a st'
    | (Raise e, st') => (Raise e, st')
    | (Blocked, st') => (Blocked, st')
    end.

(** [try: body except E1: h1 except E2: h2 ...]: the first clause whose
    class matches handles the exception; with no match it propagates.
    State changes made by the body before it raised are kept. *)
Fixpoint handle {A} (clauses : list ((Exn -> bool) * (Exn -> M A)))
    (e : Exn) : M A :=
  match clauses with
  | [] => raise e
  | (catches, handler) :: rest =>
      if catches e then handler e else handle rest e
  end.

Definition try_except {A} (body : M A)
    (clauses : list ((Exn -> bool) * (Exn -> M A))) : M A :=
  fun st =>
    match body st with
    | (Raise e, st') => handle clauses e st'
    | r => r
    end.

Declare Scope py_scope.
Delimit Scope py_scope with py.
Notation "x <- m ;; k" := (bind m (fun x => k))
  (at level 100, m at next level, right associativity) : py_scope.
Notation "m ;; k" := (bind m (fun _ => k))
  (at level 100, right associativity) : py_scope.
Local Open Scope py_scope.

Global Instance Exn_eq_dec : EqDecision Exn.
Proof. solve_decision. Defined.

(** Exception classes as used in [except] clauses. *)
Definition Exception (e : Exn) : bool := true.

Definition only (cls : Exn) (e : Exn) : bool := bool_decide (e = cls).

Definition get {A} (f : State -> A) : M A := fun st => (Ret (f st), st).

Definition modify (f : State -> State) : M unit := fun st => (Ret tt, f st).

Definition emit_event (ev : Event) : M unit :=
  modify (fun st => set_trace (trace st ++ [ev]) st).

Definition logging (lvl : Level) (msg : LogMsg) : M unit :=
  emit_event (Log lvl msg).

Definition lift {A} (o : Outcome A) : M A := fun st => (o, st).

(** ** The methods of [SnowflakeHandler] *)

Module Args.
(** The arguments of the constructor. *)
Record t := {
  account : string;
  user : string;
  password : option string;
  token : option string;
  database : string;
  schema : string;
  warehouse : string;
  role : option string;
  batch_size : Z;
  flush_interval : Q;
  table_name : string
}.
End Args.

(** The keys that [_format_record] keeps out of the metadata dict. *)
Definition reserved_keys : list string :=
  ["name"; "msg"; "args"; "created"; "filename"; "funcName";
   "levelname"; "levelno"; "lineno"; "module"; "msecs";
   "message"; "pathname"; "process"; "processName"; "relativeCreated";
   "thread"; "threadName"; "exc_info"; "exc_text"; "stack_info";
   "agent_id"; "endpoint"; "execution_context"].

Definition key_in (key : string) (keys : list string) : bool :=
  existsb (String.eqb key) keys.

(** [d[key] = value] on a dict kept in insertion order. *)
Fixpoint dict_set (key value : string) (d : list (string * string))
    : list (string * string) :=
  match d with
  | [] => [(key, value)]
  | (k, v) :: rest =>
      if String.eqb k key then (k, value) :: rest
      else (k, v) :: dict_set key value rest
  end.

(** [getattr(record, key, None)]. *)
Fixpoint getattr (items : list (string * PyVal)) (key : string) : PyVal :=
  match items with
  | [] => PyNone
  | (k, v) :: rest => if String.eqb k key then v else getattr rest key
  end.

Fixpoint build_metadata (items : list (string * PyVal))
    (metadata : list (string * string)) : list (string * string) :=
  match items with
  | [] => metadata
  | (key, value) :: rest =>
      if key_in key reserved_keys then build_metadata rest metadata
      else
        match str value with
        | Some s => build_metadata rest (dict_set key s metadata)
        | None => build_metadata rest metadata
        end
  end.

Definition insert_sql (table_name : string) : string :=
  ("INSERT INTO " ++ table_name ++ " ( "
  ++ "log_timestamp, level, logger_name, message, "
  ++ "agent_id, endpoint, execution_context, "
  ++ "exception_type, exception_message, stack_trace, "
  ++ "metadata, host, process_id, thread_name "
  ++ ") VALUES ( "
  ++ "%(log_timestamp)s, %(level)s, %(logger_name)s, %(message)s, "
  ++ "%(agent_id)s, %(endpoint)s, %(execution_context)s, "
  ++ "%(exception_type)s, %(exception_message)s, %(stack_trace)s, "
  ++ "PARSE_JSON(%(metadata)s), %(host)s, %(process_id)s, %(thread_name)s "
  ++ ")")%string.

(** Truth value of a metadata cell ([if row['metadata']]). *)
Definition metadata_truthy (m : Metadata) : bool :=
  match m with
  | MetaNone => false
  | MetaDict d => negb (bool_decide (d = []))
  | MetaJson s => negb (String.eqb s "")
  end.

(** What the worker step did; the loop body itself has no value. *)
Inductive Step :=
| Entered
| Flush
| NoFlush
| Caught (e : Exn)
| Exit
| Idle.

Section Handler.

Variable env : Env.

(** The dict handed to [snowflake.connector.connect]. *)
Definition conn_params (st : State) : gmap string string :=
  let p : gmap string string :=
    {[ "account" := account st; "user" := user st;
       "database" := database st; "schema" := schema st;
       "warehouse" := warehouse st ]} in
  let p :=
    if truthy (token st) then
      <["authenticator" := "oauth"]> (<["token" := default "" (token st)]> p)
    else if truthy (password st) then
      <["password" := default "" (password st)]> p
    else p in
  if truthy (role st) then <["role" := default "" (role st)]> p else p.

(** The call of [snowflake.connector.connect] on that dict. *)
Definition connector_connect (p : gmap string string) : M Conn :=
  n <- get connects ;;
  modify (set_connects (S n)) ;;
  emit_event (Connect p) ;;
  if connect_reply env n then ret n else raise DatabaseError.

Definition _connect : M unit :=
  try_except
    (p <- get conn_params ;;
     c <- connector_connect p ;;
     modify (set_connection (Some c)) ;;
     auth_method <- get (fun st =>
       if truthy (token st) then "PAT" else "password") ;;
     db <- get database ;;
     sc <- get schema ;;
     logging INFO (Connected auth_method db sc))
    [(Exception, fun e =>
        logging ERROR (FailedToConnect e) ;;
        modify (set_connection None))].

Definition _start_worker : M unit :=
  modify (set_running true) ;;
  modify (set_worker_thread Spawned) ;;
  emit_event ThreadStart ;;
  logging INFO WorkerStarted.

Definition __init__ (args : Args.t) : Outcome State :=
  if negb (SNOWFLAKE_AVAILABLE env) then Raise ImportError
  else if negb (truthy (Args.password args))
          && negb (truthy (Args.token args)) then Raise ValueError
  else
    let self :=
      {| account := Args.account args; user := Args.user args;
         password := Args.password args; token := Args.token args;
         database := Args.database args; schema := Args.schema args;
         warehouse := Args.warehouse args; role := Args.role args;
         table_name := Args.table_name args;
         batch_size := Args.batch_size args;
         flush_interval := Args.flush_interval args;
         hostname := gethostname env;
         log_queue := Queue.new 0;
         connection := None; batch := [];
         running := false; worker_thread := NoThread;
         connects := O; flushes := O; trace := [] |} in
    match (_connect ;; _start_worker) self with
    | (Ret _, st) => Ret st
    | (Raise e, _) => Raise e
    | (Blocked, _) => Blocked
    end.

Definition _format_record (record : LogRecord) : M Row :=
  let '(exception_type, exception_message, stack_trace) :=
    match exc_info record with
    | Some ei =>
        (ei_type ei, ei_value ei, Some (String.concat "" (ei_lines ei)))
    | None => (None, None, None)
    end in
  let agent_id := getattr (__dict__ record) "agent_id" in
  let endpoint := getattr (__dict__ record) "endpoint" in
  let execution_context := getattr (__dict__ record) "execution_context" in
  let metadata := build_metadata (__dict__ record) [] in
  self_hostname <- get hostname ;;
  match getMessage record with
  | inr e => raise e
  | inl msg =>
      ret {| log_timestamp := created record;
             level := levelname record;
             logger_name := name record;
             message := msg;
             agent_id := agent_id;
             endpoint := endpoint;
             execution_context := execution_context;
             exception_type := exception_type;
             exception_message := exception_message;
             stack_trace := stack_trace;
             metadata :=
               match metadata with [] => MetaNone | _ => MetaDict metadata end;
             host := self_hostname;
             process_id := process record;
             thread_name := threadName record |}
  end.

(** The loop over the batch that replaces each metadata dict by its
    JSON text. *)
Definition dump_metadata (row : Row) : Row :=
  if metadata_truthy (metadata row)
  then set_metadata (MetaJson (json_dumps env (metadata row))) row
  else row.

(** The body of the [try] statement of [_flush_batch]. *)
Definition flush_body : M unit :=
  oc <- get connection ;;
  match oc with
  | None => raise AttributeError
  | Some c =>
      k <- get flushes ;;
      modify (set_flushes (S k)) ;;
      emit_event (Cursor c) ;;
      match sink_reply env k with
      | CursorRaises => raise DatabaseError
      | reply =>
          sql <- get (fun st => insert_sql (table_name st)) ;;
          modify (fun st => set_batch (map dump_metadata (batch st)) st) ;;
          rows <- get batch ;;
          emit_event (ExecuteMany c sql rows) ;;
          match reply with
          | ExecuteRaises => raise DatabaseError
          | _ =>
              emit_event (CursorClose c) ;;
              match reply with
              | CloseRaises => raise DatabaseError
              | _ =>
                  logging DEBUG (Flushed (length rows)) ;;
                  modify (set_batch [])
              end
          end
      end
  end.

Definition flush_try : M unit :=
  try_except flush_body
    [(Exception, fun e =>
        logging ERROR (FailedToFlush e) ;;
        modify (set_batch []) ;;
        modify (set_connection None))].

Definition _flush_batch : M unit :=
  b <- get batch ;;
  match b with
  | [] => ret tt
  | _ =>
      c <- get connection ;;
      match c with
      | Some _ => flush_try
      | None =>
          _connect ;;
          c' <- get connection ;;
          match c' with
          | None =>
              logging WARNING (CannotFlush (length b)) ;;
              modify (set_batch [])
          | Some _ => flush_try
          end
      end
  end.

(** [logging.Handler.handleError]: reports on stderr, does not raise. *)
Definition handleError (record : LogRecord) : M unit :=
  emit_event (HandleError (name record)).

Definition emit (record : LogRecord) : M unit :=
  try_except
    (if String.prefix "snowflake" (name record) then ret tt
     else
       q <- get log_queue ;;
       q' <- lift (Queue.put_nowait record q) ;;
       modify (set_log_queue q'))
    [(only Full, fun _ => ret tt);
     (Exception, fun _ => handleError record)].

(** The inner [try] of the worker loop: one dequeue attempt. *)
Definition dequeue : M unit :=
  try_except
    (q <- get log_queue ;;
     got <- lift (Queue.get q) ;;
     modify (set_log_queue (snd got)) ;;
     row <- _format_record (fst got) ;;
     modify (fun st => set_batch (batch st ++ [row]) st) ;;
     q1 <- get log_queue ;;
     q2 <- lift (Queue.task_done q1) ;;
     modify (set_log_queue q2))
    [(only Empty, fun _ => ret tt)].

Definition should_flush (st : State) (current_time last_flush : Q) : bool :=
  (batch_size st <=? Z.of_nat (length (batch st)))
  || (negb (bool_decide (batch st = []))
      && Qle_bool (flush_interval st) (current_time - last_flush)).

(** The statements inside the outer [try] of the loop body;
    [current_time] is what [time.time()] returns there. *)
Definition iteration_body (current_time last_flush : Q) : M Step :=
  dequeue ;;
  go <- get (fun st => should_flush st current_time last_flush) ;;
  if go : bool then
    _flush_batch ;;
    modify (set_worker_thread (Looping current_time)) ;;
    ret Flush
  else ret NoFlush.

(** One pass through the body of [while self.running]. *)
Definition iteration (current_time last_flush : Q) : M Step :=
  try_except (iteration_body current_time last_flush)
    [(Exception, fun e =>
        logging ERROR (ErrorInWorker e) ;;
        emit_event (Sleep 1) ;;
        ret (Caught e))].

(** [_worker], one step at a time: the thread reads the clock on
    entry, then tests [self.running] before each pass. *)
Definition _worker (now : Q) : M Step :=
  w <- get worker_thread ;;
  match w with
  | Spawned => modify (set_worker_thread (Looping now)) ;; ret Entered
  | Looping last_flush =>
      r <- get running ;;
      if r : bool then iteration now last_flush
      else modify (set_worker_thread Returned) ;; ret Exit
  | _ => ret Idle
  end.

(** [close], up to the end of the wait for the worker thread ... *)
Definition close_stop : M unit :=
  logging INFO ShuttingDown ;;
  modify (set_running false).

(** ... and from there on. *)
Definition close_finish : M unit :=
  _flush_batch ;;
  c <- get connection ;;
  match c with
  | Some c => emit_event (ConnClose c)
  | None => ret tt
  end.

(** What the threads of a run do, in the order in which it happens. *)
Inductive Action :=
| Submit (record : LogRecord)
| Work (now : Q)
| Stop
| Finish.

Definition act (a : Action) : M unit :=
  match a with
  | Submit record => emit record
  | Work now => _worker now ;; ret tt
  | Stop => close_stop
  | Finish => close_finish
  end.

Fixpoint run (actions : list Action) : M unit :=
  match actions with
  | [] => ret tt
  | a :: rest => act a ;; run rest
  end.

End Handler.

(** ** Reading a trace *)

(** The row lists handed to [cursor.executemany], oldest first. *)
Fixpoint executions (t : list Event) : list (list Row) :=
  match t with
  | [] => []
  | ExecuteMany _ _ rows :: rest => rows :: executions rest
  | _ :: rest => executions rest
  end.

(** The calls of [snowflake.connector.connect], oldest first. *)
Fixpoint connect_calls (t : list Event) : list (gmap string string) :=
  match t with
  | [] => []
  | Connect p :: rest => p :: connect_calls rest
  | _ :: rest => connect_calls rest
  end.

(** An event passes the filter of [emit] when its logger name does not
    start with the literal of that test. *)
Definition internal_logger_name : string := "snowflake".

Definition accepted (record : LogRecord) : bool :=
  negb (String.prefix internal_logger_name (name record)).

(** ** Closed forms of the states the methods lead to *)

Section ClosedForms.

Variable env : Env.

(** After [_connect] when the connector answers. *)
Definition after_connect_ok (st : State) : State :=
  set_trace
    (trace st ++
       [Connect (conn_params st);
        Log INFO (Connected (if truthy (token st) then "PAT" else "password")
                    (database st) (schema st))])
    (set_connection (Some (connects st))
       (set_connects (S (connects st)) st)).

(** After [_connect] when the connector raises. *)
Definition after_connect_failed (st : State) : State :=
  set_trace
    (trace st ++
       [Connect (conn_params st); Log ERROR (FailedToConnect DatabaseError)])
    (set_connection None (set_connects (S (connects st)) st)).

(** After the [try] statement of the flush, by what the remote end
    answers; [c] is the connection in use. *)
Definition after_flush_try (c : Conn) (st : State) : State :=
  let rows := map (dump_metadata env) (batch st) in
  let sql := insert_sql (table_name st) in
  let failed (calls : list Event) :=
    set_connection None
      (set_batch []
         (set_trace
            (trace st ++ calls ++ [Log ERROR (FailedToFlush DatabaseError)])
            (set_flushes (S (flushes st)) st))) in
  match sink_reply env (flushes st) with
  | CursorRaises => failed [Cursor c]
  | ExecuteRaises => failed [Cursor c; ExecuteMany c sql rows]
  | CloseRaises => failed [Cursor c; ExecuteMany c sql rows; CursorClose c]
  | SinkOk =>
      set_batch []
        (set_trace
           (trace st ++
              [Cursor c; ExecuteMany c sql rows; CursorClose c;
               Log DEBUG (Flushed (length rows))])
           (set_flushes (S (flushes st)) st))
  end.

(** After [_flush_batch], path by path. *)
Definition after_flush (st : State) : State :=
  match batch st with
  | [] => st
  | _ =>
      match connection st with
      | Some c => after_flush_try c st
      | None =>
          if connect_reply env (connects st)
          then after_flush_try (connects st) (after_connect_ok st)
          else
            set_batch []
              (set_trace
                 (trace (after_connect_failed st)
                    ++ [Log WARNING (CannotFlush (length (batch st)))])
                 (after_connect_failed st))
      end
  end.

(** After [emit]. *)
Definition after_emit (record : LogRecord) (st : State) : State :=
  if String.prefix "snowflake" (name record) then st
  else
    match Queue.put_nowait record (log_queue st) with
    | Ret q => set_log_queue q st
    | _ => st
    end.

(** The attributes as [__init__] sets them before it connects. *)
Definition fresh (args : Args.t) : State :=
  {| account := Args.account args; user := Args.user args;
     password := Args.password args; token := Args.token args;
     database := Args.database args; schema := Args.schema args;
     warehouse := Args.warehouse args; role := Args.role args;
     table_name := Args.table_name args;
     batch_size := Args.batch_size args;
     flush_interval := Args.flush_interval args;
     hostname := gethostname env;
     log_queue := Queue.new 0;
     connection := None; batch := [];
     running := false; worker_thread := NoThread;
     connects := O; flushes := O; trace := [] |}.

(** After [_start_worker]. *)
Definition after_start_worker (st : State) : State :=
  set_trace (trace st ++ [ThreadStart; Log INFO WorkerStarted])
    (set_worker_thread Spawned (set_running true st)).

(** The handler that [__init__] returns when it does not raise. *)
Definition after_init (args : Args.t) : State :=
  after_start_worker
    (if connect_reply env O then after_connect_ok (fresh args)
     else after_connect_failed (fresh args)).

End ClosedForms.

(** ** Concrete runs *)

Module Demo.

(** A remote end that refuses the first two connections and fails the
    first batch insert. *)
Definition env : Env :=
  {| SNOWFLAKE_AVAILABLE := true;
     gethostname := "worker-host";
     connect_reply := fun n => Nat.leb 2 n;
     sink_reply := fun n => match n with O => ExecuteRaises | _ => SinkOk end;
     json_dumps := fun _ => "{}" |}.

Definition args (password token : option string) : Args.t :=
  {| Args.account := "acct"; Args.user := "svc";
     Args.password := password; Args.token := token;
     Args.database := "LOG_DB"; Args.schema := "RAW";
     Args.warehouse := "LOG_WH"; Args.role := None;
     Args.batch_size := 100; Args.flush_interval := 5;
     Args.table_name := "app_logs" |}.

Definition record (logger : string) (pid : Z) (text : string + Exn)
    : LogRecord :=
  {| name := logger; levelname := "INFO"; created := 0;
     getMessage := text; exc_info := None;
     process := Some pid; threadName := Some "MainThread";
     __dict__ := [("agent_id", PyStr "a1"); ("attempt", PyInt 3)] |}.

(** The handler as [__init__] leaves it for a password login against
    that remote end, the trace so far left out. *)
Definition handler : State :=
  {| account := "acct"; user := "svc"; password := Some "pw"; token := None;
     database := "LOG_DB"; schema := "RAW"; warehouse := "LOG_WH";
     role := None; table_name := "app_logs"; batch_size := 100;
     flush_interval := 5; hostname := "worker-host";
     log_queue := Queue.new 0; connection := None; batch := [];
     running := true; worker_thread := Spawned;
     connects := 1; flushes := 0; trace := [] |}.

Definition row (text : string) : Row :=
  {| log_timestamp := 0; level := "INFO"; logger_name := "app";
     message := text; agent_id := PyNone; endpoint := PyNone;
     execution_context := PyNone; exception_type := None;
     exception_message := None; stack_trace := None;
     metadata := MetaDict [("attempt", "3")]; host := "worker-host";
     process_id := Some 7; thread_name := Some "MainThread" |}.

(** The handler in its loop, last flushed at time 0. *)
Definition looping (b : list Row) (records : list LogRecord) : State :=
  set_worker_thread (Looping 0)
    (set_batch b
       (set_log_queue
          {| Queue.maxsize := 0; Queue.queue := records;
             Queue.unfinished_tasks := length records |}
          handler)).

End Demo.

(** ** The row of a record, as a function *)

(** What [_format_record] computes from the handler's host name and the
    record; [_format_record_eq] below relates the two. *)
Definition format_row (self_hostname : string) (record : LogRecord)
    : Row + Exn :=
  match getMessage record with
  | inr e => inr e
  | inl msg =>
      inl {| log_timestamp := created record;
             level := levelname record;
             logger_name := name record;
             message := msg;
             agent_id := getattr (__dict__ record) "agent_id";
             endpoint := getattr (__dict__ record) "endpoint";
             execution_context :=
               getattr (__dict__ record) "execution_context";
             exception_type :=
               match exc_info record with
               | Some ei => ei_type ei
               | None => None
               end;
             exception_message :=
               match exc_info record with
               | Some ei => ei_value ei
               | None => None
               end;
             stack_trace :=
               match exc_info record with
               | Some ei => Some (String.concat "" (ei_lines ei))
               | None => None
               end;
             metadata :=
               match build_metadata (__dict__ record) [] with
               | [] => MetaNone
               | _ => MetaDict (build_metadata (__dict__ record) [])
               end;
             host := self_hostname;
             process_id := process record;
             thread_name := threadName record |}
  end.


(** The row of [Demo.record "app" 7 (inl text)] on [Demo.handler]. *)
Definition sample_row (text : string) : Row :=
  {| log_timestamp := 0; level := "INFO"; logger_name := "app";
     message := text; agent_id := PyStr "a1"; endpoint := PyNone;
     execution_context := PyNone; exception_type := None;
     exception_message := None; stack_trace := None;
     metadata := MetaDict [("attempt", "3")]; host := "worker-host";
     process_id := Some 7; thread_name := Some "MainThread" |}.

(** The queue keeps count of at least the records it holds. *)
Definition counted (st : State) : Prop :=
  (length (Queue.queue (log_queue st))
   <= Queue.unfinished_tasks (log_queue st))%nat.

(** ** configure_snowflake_logging *)

Module Configure.

(** The log lines of the function. *)
Inductive Msg :=
| Disabled
| NotInstalled
| MissingAccountUser
| NoCredential
| Enabled (database schema : string)
| FailedToConfigure (e : Exn).

(** What a call leaves behind: its return value or exception, the lines
    it logged, and the handler it added to the target logger. *)
Record Result := {
  returned : Outcome bool;
  logged : list (Level * Msg);
  added : option State
}.

(** [str.lower] on the bytes of a string.  It is only compared with an
    ASCII literal, and no character outside ASCII lower-cases to an
    ASCII letter of that literal. *)
Definition lower_ascii (c : Ascii.ascii) : Ascii.ascii :=
  let n := Ascii.nat_of_ascii c in
  if ((65 <=? n) && (n <=? 90))%nat then Ascii.ascii_of_nat (n + 32) else c.

Fixpoint lower (s : string) : string :=
  match s with
  | EmptyString => EmptyString
  | String c rest => String (lower_ascii c) (lower rest)
  end.

Section WithParsers.

Variable env : Env.

(** [int(...)] and [float(...)] on a string; [None] when they raise
    [ValueError]. *)
Variable int : string -> option Z.
Variable float : string -> option Q.

(** The arguments the function passes to the constructor; the table
    name is left to the constructor's default. *)
Definition handler_args (environ : gmap string string)
    (batch_size : Z) (flush_interval : Q) : Args.t :=
  {| Args.account := default "" (environ !! "SNOWFLAKE_ACCOUNT");
     Args.user := default "" (environ !! "SNOWFLAKE_USER");
     Args.password := environ !! "SNOWFLAKE_PASSWORD";
     Args.token := environ !! "SNOWFLAKE_TOKEN";
     Args.database := default "LOG_DB" (environ !! "SNOWFLAKE_DATABASE");
     Args.schema := default "RAW" (environ !! "SNOWFLAKE_SCHEMA");
     Args.warehouse := default "LOG_WH" (environ !! "SNOWFLAKE_WAREHOUSE");
     Args.role := environ !! "SNOWFLAKE_ROLE";
     Args.batch_size := batch_size;
     Args.flush_interval := flush_interval;
     Args.table_name := "app_logs" |}.

Definition configure_snowflake_logging (environ : gmap string string)
    : Result :=
  let enabled :=
    String.eqb (lower (default "false" (environ !! "SNOWFLAKE_ENABLED")))
      "true" in
  if negb enabled then
    {| returned := Ret false; logged := [(INFO, Disabled)]; added := None |}
  else if negb (SNOWFLAKE_AVAILABLE env) then
    {| returned := Ret false; logged := [(WARNING, NotInstalled)];
       added := None |}
  else if negb (truthy (environ !! "SNOWFLAKE_ACCOUNT"))
          || negb (truthy (environ !! "SNOWFLAKE_USER")) then
    {| returned := Ret false; logged := [(WARNING, MissingAccountUser)];
       added := None |}
  else if negb (truthy (environ !! "SNOWFLAKE_PASSWORD"))
          && negb (truthy (environ !! "SNOWFLAKE_TOKEN")) then
    {| returned := Ret false; logged := [(WARNING, NoCredential)];
       added := None |}
  else
    match int (default "100" (environ !! "SNOWFLAKE_BATCH_SIZE")) with
    | None =>
        {| returned := Raise ValueError; logged := []; added := None |}
    | Some batch_size =>
        match
          float (default "5.0" (environ !! "SNOWFLAKE_FLUSH_INTERVAL"))
        with
        | None =>
            {| returned := Raise ValueError; logged := []; added := None |}
        | Some flush_interval =>
            let args := handler_args environ batch_size flush_interval in
            match __init__ env args with
            | Ret handler =>
                {| returned := Ret true;
                   logged :=
                     [(INFO, Enabled (Args.database args) (Args.schema args))];
                   added := Some handler |}
            | Raise e =>
                {| returned := Ret false;
                   logged := [(ERROR, FailedToConfigure e)];
                   added := None |}
            | Blocked =>
                {| returned := Blocked; logged := []; added := None |}
            end
        end
    end.

End WithParsers.

End Configure.

(** ** Equations of the methods *)

Ltac unfold_m :=
  unfold try_except, bind, get, modify, emit_event, logging, lift, ret,
    raise in *.

Lemma executions_app (t1 t2 : list Event) :
  executions (t1 ++ t2) = executions t1 ++ executions t2.
Proof.
  induction t1 as [|ev t1 IH]; [reflexivity|].
  destruct ev; cbn; rewrite IH; reflexivity.
Qed.

Lemma connect_calls_app (t1 t2 : list Event) :
  connect_calls (t1 ++ t2) = connect_calls t1 ++ connect_calls t2.
Proof.
  induction t1 as [|ev t1 IH]; [reflexivity|].
  destruct ev; cbn; rewrite IH; reflexivity.
Qed.

Example handler_is_init :
  exists t,
    __init__ Demo.env (Demo.args (Some "pw") None)
    = Ret (set_trace t Demo.handler).
Proof. eexists. vm_compute. reflexivity. Qed.

Section Equations.

Variable env : Env.

Lemma _connect_eq (st : State) :
  _connect env st =
    (Ret tt, if connect_reply env (connects st)
             then after_connect_ok st else after_connect_failed st).
Proof.
  unfold _connect, connector_connect. unfold_m. cbn.
  destruct (connect_reply env (connects st)); cbn.
  - unfold after_connect_ok. cbn. rewrite <- !app_assoc. reflexivity.
  - unfold after_connect_failed. cbn. rewrite <- !app_assoc. reflexivity.
Qed.

Lemma flush_try_eq (c : Conn) (st : State) :
  connection st = Some c ->
  flush_try env st = (Ret tt, after_flush_try env c st).
Proof.
  intros Hc. unfold flush_try, flush_body, after_flush_try. unfold_m.
  rewrite Hc. cbn.
  destruct (sink_reply env (flushes st)); cbn;
    rewrite <- ?app_assoc; reflexivity.
Qed.

Lemma after_flush_try_batch (c : Conn) (st : State) :
  batch (after_flush_try env c st) = [].
Proof.
  unfold after_flush_try. destruct (sink_reply env (flushes st)); reflexivity.
Qed.

Lemma _flush_batch_eq (st : State) :
  _flush_batch env st = (Ret tt, after_flush env st).
Proof.
  unfold _flush_batch, after_flush.
  unfold bind at 1. unfold get at 1.
  destruct (batch st) as [|row rows] eqn:Hb; [reflexivity|].
  unfold bind at 1. unfold get at 1.
  destruct (connection st) as [c|] eqn:Hc.
  - apply flush_try_eq, Hc.
  - unfold bind at 1. rewrite _connect_eq.
    destruct (connect_reply env (connects st)).
    + unfold bind at 1. unfold get at 1.
      cbn [connection after_connect_ok set_trace set_connection].
      apply flush_try_eq. reflexivity.
    + reflexivity.
Qed.

Lemma after_flush_batch (st : State) : batch (after_flush env st) = [].
Proof.
  unfold after_flush. destruct (batch st) eqn:Hb; [exact Hb|].
  destruct (connection st).
  - apply after_flush_try_batch.
  - destruct (connect_reply env (connects st)).
    + apply after_flush_try_batch.
    + reflexivity.
Qed.

(** A flush hands at most one row list to the connector, and it is the
    batch as it stood, metadata serialised. *)
Lemma after_flush_executions (st : State) :
  executions (trace (after_flush env st)) = executions (trace st)
  \/ executions (trace (after_flush env st))
     = executions (trace st) ++ [map (dump_metadata env) (batch st)].
Proof.
  assert (Htry : forall c s,
    executions (trace (after_flush_try env c s)) = executions (trace s)
    \/ executions (trace (after_flush_try env c s))
       = executions (trace s) ++ [map (dump_metadata env) (batch s)]).
  { intros c s. unfold after_flush_try.
    destruct (sink_reply env (flushes s)); cbn; rewrite executions_app; cbn;
      rewrite ?app_nil_r; auto. }
  unfold after_flush. destruct (batch st) eqn:Hb; [auto|].
  destruct (connection st).
  - rewrite <- Hb. apply Htry.
  - destruct (connect_reply env (connects st)).
    + destruct (Htry (connects st) (after_connect_ok st)) as [H|H];
        rewrite H; cbn; rewrite executions_app; cbn; rewrite app_nil_r;
        rewrite ?Hb; cbn; auto.
    + left. cbn. rewrite !executions_app. cbn. rewrite !app_nil_r. reflexivity.
Qed.

End Equations.

Lemma emit_eq (record : LogRecord) (st : State) :
  emit record st = (Ret tt, after_emit record st).
Proof.
  unfold emit, after_emit, Queue.put_nowait, Queue.put. unfold_m.
  destruct (String.prefix "snowflake" (name record)); [reflexivity|].
  cbn. destruct (Queue.full (log_queue st)); reflexivity.
Qed.

(** ** The flush *)

(** C10: with an empty batch [_flush_batch] returns at once: the state,
    trace of outside calls included, is the one it was called in, so no
    cursor was used and no connection attempted. *)
Theorem flush_of_empty_batch_is_noop (env : Env) (st : State) :
  batch st = [] -> _flush_batch env st = (Ret tt, st).
Proof.
  intros Hb. rewrite _flush_batch_eq. unfold after_flush. rewrite Hb.
  reflexivity.
Qed.

Lemma flush_of_empty_batch_is_noop_witness :
  batch Demo.handler = []
  /\ _flush_batch Demo.env Demo.handler = (Ret tt, Demo.handler).
Proof.
  split; [reflexivity|].
  apply (flush_of_empty_batch_is_noop Demo.env Demo.handler). reflexivity.
Defined.

Lemma after_flush_try_raised (env : Env) (c : Conn) (st : State) :
  sink_reply env (flushes st) = ExecuteRaises ->
  let st1 := after_flush_try env c st in
  batch st1 = [] /\ connection st1 = None
  /\ last (trace st1) = Some (Log ERROR (FailedToFlush DatabaseError))
  /\ executions (trace st1)
     = executions (trace st) ++ [map (dump_metadata env) (batch st)]
  /\ flushes st1 = S (flushes st)
  /\ connects st1 = connects st.
Proof.
  intros Hr. unfold after_flush_try. rewrite Hr. cbn.
  repeat split.
  - rewrite last_app. reflexivity.
  - rewrite executions_app. cbn. reflexivity.
Qed.

(** What a flush does once the connection has been dropped and rows are
    waiting: it starts with one call of the connector's [connect]. *)
Lemma flush_without_connection (env : Env) (st : State) :
  connection st = None -> batch st <> [] ->
  exists st',
    _flush_batch env st = (Ret tt, st')
    /\ connects st' = S (connects st)
    /\ connect_calls (trace st')
       = connect_calls (trace st) ++ [conn_params st]
    /\ (connect_reply env (connects st) = false ->
        connection st' = None /\ batch st' = []
        /\ executions (trace st') = executions (trace st))
    /\ (connect_reply env (connects st) = true ->
        sink_reply env (flushes st) = SinkOk ->
        connection st' = Some (connects st) /\ batch st' = []
        /\ executions (trace st')
           = executions (trace st) ++ [map (dump_metadata env) (batch st)]).
Proof.
  intros Hc Hb. exists (after_flush env st).
  split; [apply _flush_batch_eq|].
  unfold after_flush. rewrite Hc.
  destruct (batch st) as [|row rows] eqn:Hrows; [congruence|].
  destruct (connect_reply env (connects st)) eqn:Hreply.
  - unfold after_flush_try. cbn [flushes after_connect_ok set_trace
      set_connection set_connects].
    destruct (sink_reply env (flushes st)) eqn:Hsink; cbn;
      rewrite ?connect_calls_app, ?executions_app; cbn;
      rewrite ?app_nil_r, ?Hrows; repeat split; try congruence.
  - cbn. rewrite ?connect_calls_app, ?executions_app. cbn.
    rewrite ?app_nil_r. repeat split; congruence.
Qed.

(** C4: when the batch insert raises during a flush, the flush returns
    with the error logged last, the batch empty and the connection
    absent; the connector was handed the batch once and not again in that
    flush.  From then on, while the connection stays absent, a flush with
    rows waiting begins by one fresh call of [connect], and when that call
    and the insert go through, the connector receives the batch as it
    stands at that time. *)
Theorem failed_insert_drops_batch_and_connection
    (env : Env) (st : State) (c : Conn) :
  batch st <> [] ->
  connection st = Some c
  \/ (connection st = None /\ connect_reply env (connects st) = true
      /\ c = connects st) ->
  sink_reply env (flushes st) = ExecuteRaises ->
  exists st1,
    _flush_batch env st = (Ret tt, st1)
    /\ batch st1 = [] /\ connection st1 = None
    /\ last (trace st1) = Some (Log ERROR (FailedToFlush DatabaseError))
    /\ executions (trace st1)
       = executions (trace st) ++ [map (dump_metadata env) (batch st)]
    /\ flushes st1 = S (flushes st)
    /\ forall st2,
         connection st2 = connection st1 -> batch st2 <> [] ->
         exists st3,
           _flush_batch env st2 = (Ret tt, st3)
           /\ connects st3 = S (connects st2)
           /\ connect_calls (trace st3)
              = connect_calls (trace st2) ++ [conn_params st2]
           /\ (connect_reply env (connects st2) = true ->
               sink_reply env (flushes st2) = SinkOk ->
               connection st3 = Some (connects st2) /\ batch st3 = []
               /\ executions (trace st3)
                  = executions (trace st2)
                    ++ [map (dump_metadata env) (batch st2)]).
Proof.
  intros Hb Hconn Hsink.
  assert (Hnext : forall st1, connection st1 = None ->
    forall st2, connection st2 = connection st1 -> batch st2 <> [] ->
    exists st3,
      _flush_batch env st2 = (Ret tt, st3)
      /\ connects st3 = S (connects st2)
      /\ connect_calls (trace st3)
         = connect_calls (trace st2) ++ [conn_params st2]
      /\ (connect_reply env (connects st2) = true ->
          sink_reply env (flushes st2) = SinkOk ->
          connection st3 = Some (connects st2) /\ batch st3 = []
          /\ executions (trace st3)
             = executions (trace st2)
               ++ [map (dump_metadata env) (batch st2)])).
  { intros st1 H1 st2 H2 Hb2. rewrite H1 in H2.
    destruct (flush_without_connection env st2 H2 Hb2)
      as (st3 & Hrun & Hn & Hcalls & _ & Hok).
    exists st3. auto. }
  exists (after_flush env st). split; [apply _flush_batch_eq|].
  unfold after_flush.
  destruct (batch st) as [|row rows] eqn:Hrows; [congruence|].
  rewrite <- Hrows in *.
  destruct Hconn as [Hc | (Hc & Hreply & ->)]; rewrite Hc.
  - destruct (after_flush_try_raised env c st Hsink)
      as (H1 & H2 & H3 & H4 & H5 & _).
    repeat (split; [assumption|]). apply Hnext, H2.
  - rewrite Hreply.
    destruct (after_flush_try_raised env (connects st) (after_connect_ok st)
                Hsink) as (H1 & H2 & H3 & H4 & H5 & _).
    repeat (split; [assumption|]).
    split.
    { rewrite H4. cbn. rewrite executions_app. cbn. rewrite app_nil_r.
      reflexivity. }
    split; [exact H5|]. apply Hnext, H2.
Qed.

Lemma failed_insert_drops_batch_and_connection_witness :
  let st := set_connection (Some O) (set_batch [Demo.row "a"] Demo.handler) in
  exists st1,
    _flush_batch Demo.env st = (Ret tt, st1)
    /\ batch st1 = [] /\ connection st1 = None
    /\ last (trace st1) = Some (Log ERROR (FailedToFlush DatabaseError))
    /\ executions (trace st1)
       = executions (trace st)
         ++ [map (dump_metadata Demo.env) (batch st)]
    /\ flushes st1 = S (flushes st)
    /\ forall st2,
         connection st2 = connection st1 -> batch st2 <> [] ->
         exists st3,
           _flush_batch Demo.env st2 = (Ret tt, st3)
           /\ connects st3 = S (connects st2)
           /\ connect_calls (trace st3)
              = connect_calls (trace st2) ++ [conn_params st2]
           /\ (connect_reply Demo.env (connects st2) = true ->
               sink_reply Demo.env (flushes st2) = SinkOk ->
               connection st3 = Some (connects st2) /\ batch st3 = []
               /\ executions (trace st3)
                  = executions (trace st2)
                    ++ [map (dump_metadata Demo.env) (batch st2)]).
Proof.
  intros st.
  apply (failed_insert_drops_batch_and_connection Demo.env st O).
  - discriminate.
  - left. reflexivity.
  - reflexivity.
Defined.

(** ** Submitting events *)

(** A blocking [put] on a full bounded queue would wait for the
    consumer; [emit] uses [put_nowait], which raises instead. *)
Example blocking_put_waits (record : LogRecord) :
  let q := {| Queue.maxsize := 1; Queue.queue := [record];
              Queue.unfinished_tasks := 1 |} in
  Queue.put record true q = Blocked /\ Queue.put_nowait record q = Raise Full.
Proof. split; reflexivity. Qed.

(** C6: for every record and every state of the handler, [emit] returns
    to its caller: it neither raises nor waits.  On a queue that is full
    it returns with the state as it was. *)
Theorem emit_returns_normally (record : LogRecord) (st : State) :
  exists st',
    emit record st = (Ret tt, st')
    /\ (Queue.full (log_queue st) = true -> st' = st).
Proof.
  exists (after_emit record st). split; [apply emit_eq|].
  intros Hfull. unfold after_emit, Queue.put_nowait, Queue.put.
  rewrite Hfull. destruct (String.prefix "snowflake" (name record)); reflexivity.
Qed.



(** A run of submissions on an unbounded queue appends every record
    that passes the name filter, in order. *)
Lemma run_submits (env : Env) (records : list LogRecord) (st : State) :
  Queue.maxsize (log_queue st) <= 0 ->
  run env (map Submit records) st =
    (Ret tt,
     set_log_queue
       {| Queue.maxsize := Queue.maxsize (log_queue st);
          Queue.queue :=
            Queue.queue (log_queue st) ++ List.filter accepted records;
          Queue.unfinished_tasks :=
            (Queue.unfinished_tasks (log_queue st)
             + length (List.filter accepted records))%nat |}
       st).
Proof.
  revert st. induction records as [|record records IH]; intros st Hmax.
  - destruct st as [? ? ? ? ? ? ? ? ? ? ? ? [? ? ?] ? ? ? ? ? ? ?]. cbn.
    rewrite app_nil_r, Nat.add_0_r. reflexivity.
  - cbn [map run act]. unfold bind at 1. rewrite emit_eq.
    unfold after_emit, accepted, internal_logger_name.
    cbn [List.filter].
    destruct (String.prefix "snowflake" (name record)); cbn [negb].
    + apply IH, Hmax.
    + unfold Queue.put_nowait, Queue.put, Queue.full.
      replace (0 <? Queue.maxsize (log_queue st)) with false
        by (symmetry; apply Z.ltb_ge; exact Hmax).
      cbn [andb]. rewrite IH by exact Hmax. cbn.
      rewrite <- app_assoc, Nat.add_succ_r. reflexivity.
Qed.

(** ** Construction *)

Lemma __init___eq (env : Env) (args : Args.t) :
  __init__ env args =
    if negb (SNOWFLAKE_AVAILABLE env) then Raise ImportError
    else if truthy (Args.password args) || truthy (Args.token args)
    then Ret (after_init env args)
    else Raise ValueError.
Proof.
  unfold __init__. destruct (SNOWFLAKE_AVAILABLE env); [|reflexivity].
  cbn [negb].
  destruct (truthy (Args.password args)), (truthy (Args.token args));
    cbn [negb andb orb]; try reflexivity.
  all: unfold bind at 1; rewrite _connect_eq; unfold after_init;
    cbn [connects]; destruct (connect_reply env O);
    unfold _start_worker, after_start_worker; unfold_m; cbn;
    rewrite <- ?app_assoc; reflexivity.
Qed.

(** The credential entries of the connection parameters: the token
    wins over the password. *)
Lemma conn_params_credential (st : State) :
  let p := conn_params st in
  if truthy (token st) then
    p !! "token" = token st /\ p !! "authenticator" = Some "oauth"
    /\ p !! "password" = None
  else if truthy (password st) then
    p !! "password" = password st /\ p !! "token" = None
    /\ p !! "authenticator" = None
  else
    p !! "password" = None /\ p !! "token" = None
    /\ p !! "authenticator" = None.
Proof.
  unfold conn_params.
  destruct (token st) as [tok|] eqn:Htok, (password st) as [pw|] eqn:Hpw;
    cbn [truthy default];
    repeat match goal with
    | |- context [negb (String.eqb ?s "")] =>
        destruct (String.eqb s "") eqn:?; cbn [negb]
    end;
    destruct (truthy (role st)); cbn zeta; simplify_map_eq; auto.
Qed.

Lemma after_init_shape (env : Env) (args : Args.t) :
  let st := after_init env args in
  log_queue st = Queue.new 0
  /\ password st = Args.password args /\ token st = Args.token args
  /\ connect_calls (trace st) = [conn_params st]
  /\ running st = true /\ worker_thread st = Spawned /\ batch st = [].
Proof.
  unfold after_init. destruct (connect_reply env O); cbn;
    repeat split; reflexivity.
Qed.

(** C8, as the code has it: with the connector package present,
    construction raises [ValueError] exactly when neither a password nor
    a token is given (absent or empty).  With at least one of them it
    returns a handler that has made one [connect] call; when a token is
    given that call carries the token with the [oauth] authenticator and
    no password, whether or not a password was given as well; otherwise it
    carries the password. *)
Theorem construction_needs_one_credential (env : Env) (args : Args.t) :
  SNOWFLAKE_AVAILABLE env = true ->
  if truthy (Args.password args) || truthy (Args.token args) then
    exists st,
      __init__ env args = Ret st
      /\ connect_calls (trace st) = [conn_params st]
      /\ if truthy (Args.token args) then
           conn_params st !! "token" = Args.token args
           /\ conn_params st !! "authenticator" = Some "oauth"
           /\ conn_params st !! "password" = None
         else
           conn_params st !! "password" = Args.password args
           /\ conn_params st !! "token" = None
           /\ conn_params st !! "authenticator" = None
  else __init__ env args = Raise ValueError.
Proof.
  intros Havail. rewrite __init___eq, Havail. cbn [negb].
  destruct (truthy (Args.password args) || truthy (Args.token args))
    eqn:Hcred; [|reflexivity].
  exists (after_init env args). split; [reflexivity|].
  destruct (after_init_shape env args) as (_ & Hpw & Htok & Hcalls & _).
  split; [exact Hcalls|].
  pose proof (conn_params_credential (after_init env args)) as Hp.
  cbn zeta in Hp. rewrite Htok, Hpw in Hp.
  destruct (truthy (Args.token args)); [exact Hp|].
  rewrite orb_false_r in Hcred. rewrite Hcred in Hp. exact Hp.
Qed.

Lemma construction_needs_one_credential_witness :
  exists st,
    __init__ Demo.env (Demo.args (Some "pw") (Some "tok")) = Ret st
    /\ connect_calls (trace st) = [conn_params st]
    /\ conn_params st !! "token" = Some "tok"
    /\ conn_params st !! "authenticator" = Some "oauth"
    /\ conn_params st !! "password" = None.
Proof.
  apply (construction_needs_one_credential Demo.env
           (Demo.args (Some "pw") (Some "tok"))).
  reflexivity.
Defined.

(** C8 as stated fails: a configuration that gives both a password and
    a token is accepted, and the handler is built and started. *)
Lemma both_credentials_are_accepted :
  let args := Demo.args (Some "pw") (Some "tok") in
  truthy (Args.password args) = true
  /\ truthy (Args.token args) = true
  /\ exists st,
       __init__ Demo.env args = Ret st
       /\ running st = true /\ worker_thread st = Spawned.
Proof.
  intros args. split; [reflexivity|]. split; [reflexivity|].
  exists (after_init Demo.env args).
  split; [apply __init___eq|]. split; reflexivity.
Qed.

(** Neither credential: construction raises. *)
Example no_credential_is_refused :
  __init__ Demo.env (Demo.args None (Some "")) = Raise ValueError.
Proof. reflexivity. Qed.

(** ** The ingestion queue *)

(** C2, as the code has it: the queue is created without a bound and
    [emit] never changes the bound; every [emit] returns, leaving the
    queued records in place and at most adding the new one at the tail;
    it drops the new record when the queue is full, which a queue
    without a bound never is.  So after construction a run of
    submissions, with the worker not scheduled, returns with every
    record that passes the name filter queued, in order. *)
Theorem submissions_are_all_retained
    (env : Env) (args : Args.t) (st0 : State) (records : list LogRecord) :
  __init__ env args = Ret st0 ->
  Queue.maxsize (log_queue st0) = 0
  /\ (exists st,
        run env (map Submit records) st0 = (Ret tt, st)
        /\ Queue.maxsize (log_queue st) = 0
        /\ Queue.queue (log_queue st) = List.filter accepted records)
  /\ forall (record : LogRecord) (st : State),
       exists st',
         emit record st = (Ret tt, st')
         /\ Queue.maxsize (log_queue st') = Queue.maxsize (log_queue st)
         /\ (Queue.queue (log_queue st') = Queue.queue (log_queue st)
             \/ Queue.queue (log_queue st')
                = Queue.queue (log_queue st) ++ [record])
         /\ (Queue.full (log_queue st) = true ->
             Queue.queue (log_queue st') = Queue.queue (log_queue st)).
Proof.
  intros Hinit.
  assert (Hq : log_queue st0 = Queue.new 0).
  { rewrite __init___eq in Hinit.
    destruct (SNOWFLAKE_AVAILABLE env); [|discriminate].
    destruct (truthy (Args.password args) || truthy (Args.token args));
      [|discriminate].
    injection Hinit as <-. apply after_init_shape. }
  split; [rewrite Hq; reflexivity|].
  split.
  - eexists. split.
    + apply run_submits. rewrite Hq. cbn. lia.
    + cbn. rewrite Hq. cbn. split; reflexivity.
  - intros record st. exists (after_emit record st).
    split; [apply emit_eq|].
    unfold after_emit, Queue.put_nowait, Queue.put.
    destruct (String.prefix "snowflake" (name record)); [auto|].
    destruct (Queue.full (log_queue st)); cbn; auto.
    repeat split; auto. discriminate.
Qed.

Lemma submissions_are_all_retained_witness :
  exists st,
    run Demo.env
      (map Submit (repeat (Demo.record "app" 7 (inl "hello")) 10))
      (after_init Demo.env (Demo.args (Some "pw") None)) = (Ret tt, st)
    /\ Queue.maxsize (log_queue st) = 0
    /\ Queue.queue (log_queue st)
       = List.filter accepted (repeat (Demo.record "app" 7 (inl "hello")) 10).
Proof.
  apply (submissions_are_all_retained Demo.env (Demo.args (Some "pw") None)
           (after_init Demo.env (Demo.args (Some "pw") None))
           (repeat (Demo.record "app" 7 (inl "hello")) 10)).
  reflexivity.
Defined.

(** C2 as stated fails: the constructor takes no capacity and builds
    the queue without a bound; ten submissions with the worker not
    scheduled leave ten records queued, and no number bounds what a run
    of submissions can leave queued. *)
Lemma queue_keeps_ten_of_ten :
  let st0 := after_init Demo.env (Demo.args (Some "pw") None) in
  let record := Demo.record "app" 7 (inl "hello") in
  __init__ Demo.env (Demo.args (Some "pw") None) = Ret st0
  /\ (exists st,
        run Demo.env (map Submit (repeat record 10)) st0 = (Ret tt, st)
        /\ length (Queue.queue (log_queue st)) = 10%nat
        /\ ~ (length (Queue.queue (log_queue st)) <= 3)%nat)
  /\ ~ exists capacity : nat,
         forall records st,
           run Demo.env (map Submit records) st0 = (Ret tt, st) ->
           (length (Queue.queue (log_queue st)) <= capacity)%nat.
Proof.
  intros st0 record. split; [reflexivity|]. split.
  - eexists. split; [apply run_submits; cbn; lia|].
    cbn. split; [reflexivity|lia].
  - intros [capacity Hcap].
    specialize (Hcap (repeat record (S capacity)) _
                  (run_submits Demo.env _ st0 ltac:(cbn; lia))).
    cbn [log_queue set_log_queue Queue.queue] in Hcap.
    replace (List.filter accepted (repeat record (S capacity)))
      with (repeat record (S capacity)) in Hcap.
    + rewrite length_app, repeat_length in Hcap. lia.
    + clear Hcap. induction (S capacity) as [|n IH]; [reflexivity|].
      cbn [repeat List.filter]. change (accepted record) with true.
      cbn. f_equal. exact IH.
Qed.

(** ** Formatting a record into a row *)



Lemma hostname_is_fixed_at_construction (env : Env) (args : Args.t) :
  hostname (after_init env args) = gethostname env.
Proof. unfold after_init. destruct (connect_reply env O); reflexivity. Qed.

(** ** The worker loop *)

(** A dequeue attempt on an empty queue is the timeout: nothing
    changes. *)
Lemma dequeue_timeout (st : State) :
  Queue.queue (log_queue st) = [] -> dequeue st = (Ret tt, st).
Proof.
  intros Hq. unfold dequeue, Queue.get. unfold_m. rewrite Hq. reflexivity.
Qed.

(** Formatting returns a row or raises, and leaves the handler as it
    was. *)
Lemma _format_record_state (record : LogRecord) (st : State) :
  exists o, _format_record record st = (o, st) /\ o <> Blocked.
Proof.
  unfold _format_record.
  destruct (exc_info record); unfold_m;
    destruct (getMessage record); cbn; eexists; split;
    try reflexivity; discriminate.
Qed.

(** A dequeue attempt returns or raises; it does not wait for ever, and
    it leaves the thread's own control state alone. *)
Lemma dequeue_frame (st : State) :
  exists o st1,
    dequeue st = (o, st1)
    /\ o <> Blocked
    /\ running st1 = running st
    /\ worker_thread st1 = worker_thread st.
Proof.
  unfold dequeue, Queue.get, Queue.task_done. unfold_m. cbn.
  destruct (Queue.queue (log_queue st)) as [|record rest] eqn:Hq; cbn.
  - do 2 eexists. repeat split. discriminate.
  - match goal with
    | |- context [_format_record ?r ?s] =>
        destruct (_format_record_state r s) as (o & Ho & Hnb); rewrite Ho
    end.
    destruct o as [row|e|]; [| |congruence]; cbn.
    + destruct (Queue.unfinished_tasks (log_queue st)); cbn;
        do 2 eexists; repeat split; discriminate.
    + destruct e; cbn; do 2 eexists; repeat split; discriminate.
Qed.


(** The statements of one pass, by what the dequeue attempt did. *)
Lemma iteration_body_eq (env : Env) (now lf : Q) (st : State) :
  iteration_body env now lf st =
    match dequeue st with
    | (Ret _, st1) =>
        if should_flush st1 now lf
        then (Ret Flush,
              set_worker_thread (Looping now) (snd (_flush_batch env st1)))
        else (Ret NoFlush, st1)
    | (Raise e, st1) => (Raise e, st1)
    | (Blocked, st1) => (Blocked, st1)
    end.
Proof.
  unfold iteration_body. unfold bind at 1.
  destruct (dequeue st) as [[[]|e|] st1]; try reflexivity.
  unfold bind at 1. unfold get at 1.
  destruct (should_flush st1 now lf); [|reflexivity].
  unfold bind at 1. rewrite _flush_batch_eq. reflexivity.
Qed.

Lemma _worker_looping (env : Env) (now lf : Q) (st : State) :
  worker_thread st = Looping lf -> running st = true ->
  _worker env now st = iteration env now lf st.
Proof.
  intros Hw Hr. unfold _worker. unfold bind at 1. unfold get at 1.
  rewrite Hw. unfold bind at 1. unfold get at 1. rewrite Hr. reflexivity.
Qed.

Lemma should_flush_iff (st : State) (now lf : Q) :
  should_flush st now lf = true <->
  batch_size st <= Z.of_nat (length (batch st))
  \/ (batch st <> [] /\ (flush_interval st <= now - lf)%Q).
Proof.
  unfold should_flush.
  rewrite orb_true_iff, andb_true_iff, negb_true_iff, Z.leb_le,
    Qle_bool_iff, bool_decide_eq_false.
  reflexivity.
Qed.



(** The time trigger on an idle queue, and no trigger before the
    interval has run out. *)
Example idle_pass_flushes_after_interval :
  fst (_worker Demo.env 10 (Demo.looping [Demo.row "a"] [])) = Ret Flush
  /\ fst (_worker Demo.env 3 (Demo.looping [Demo.row "a"] [])) = Ret NoFlush
  /\ fst (_worker Demo.env 10 (Demo.looping [] [])) = Ret NoFlush.
Proof. repeat split; vm_compute; reflexivity. Qed.




(** The pass of that state does raise, so the handler is what runs. *)
Example failing_pass_raises :
  exists st1,
    iteration_body Demo.env 10 0
      (Demo.looping [Demo.row "a"] [Demo.record "app" 7 (inr TypeError)])
    = (Raise TypeError, st1).
Proof. eexists. vm_compute. reflexivity. Qed.

(** ** Flush attempts of the worker *)

(** C1: whichever way a flush attempt goes (insert accepted, insert or
    cursor raising, no connection to be had), [_flush_batch] returns with
    the batch empty; it has handed the connector at most one row list,
    the batch as it stood; a second flush right after it changes
    nothing, so it hands the connector no rows at all; and every worker
    step that made a flush attempt ends with the batch empty. *)
Theorem flush_leaves_batch_empty (env : Env) (st : State) :
  (exists st',
     _flush_batch env st = (Ret tt, st')
     /\ batch st' = []
     /\ (executions (trace st') = executions (trace st)
         \/ executions (trace st')
            = executions (trace st) ++ [map (dump_metadata env) (batch st)])
     /\ _flush_batch env st' = (Ret tt, st'))
  /\ forall (now : Q) (st2 : State),
       _worker env now st = (Ret Flush, st2) -> batch st2 = [].
Proof.
  split.
  - exists (after_flush env st). split; [apply _flush_batch_eq|].
    split; [apply after_flush_batch|].
    split; [apply after_flush_executions|].
    rewrite _flush_batch_eq. f_equal.
    unfold after_flush at 1. rewrite after_flush_batch. reflexivity.
  - intros now st2. unfold _worker. unfold bind at 1. unfold get at 1.
    destruct (worker_thread st) as [| |lf|]; try (unfold_m; congruence).
    unfold bind at 1. unfold get at 1.
    destruct (running st); [|unfold_m; congruence].
    unfold iteration, try_except. rewrite iteration_body_eq.
    destruct (dequeue st) as [[[]|e|] st1]; [| |congruence].
    + destruct (should_flush st1 now lf); [|congruence].
      rewrite _flush_batch_eq. intros [= <-]. apply after_flush_batch.
    + cbn. unfold_m. congruence.
Qed.

(** ** The metadata dict of a row *)

Lemma key_in_true (key : string) (keys : list string) :
  key_in key keys = true <-> In key keys.
Proof.
  unfold key_in. rewrite existsb_exists. split.
  - intros (k & Hin & Heq). apply String.eqb_eq in Heq. subst k. exact Hin.
  - intros Hin. exists key. split; [exact Hin|apply String.eqb_refl].
Qed.

Lemma dict_set_In (key value : string) (d : list (string * string))
    (k v : string) :
  In (k, v) (dict_set key value d) ->
  (k = key /\ v = value) \/ In (k, v) d.
Proof.
  induction d as [|[k0 v0] d IH]; cbn.
  - intros [[= <- <-]|[]]. auto.
  - destruct (String.eqb_spec k0 key) as [->|Hne]; cbn.
    + intros [[= <- <-]|Hin]; auto.
    + intros [[= <- <-]|Hin]; [auto|].
      destruct (IH Hin) as [?|?]; auto.
Qed.

Lemma dict_set_same (key value : string) (d : list (string * string)) :
  In (key, value) (dict_set key value d).
Proof.
  induction d as [|[k0 v0] d IH]; cbn; [auto|].
  destruct (String.eqb_spec k0 key) as [->|Hne]; cbn; auto.
Qed.

Lemma dict_set_other (key value : string) (d : list (string * string))
    (k v : string) :
  k <> key -> In (k, v) d -> In (k, v) (dict_set key value d).
Proof.
  intros Hk. induction d as [|[k0 v0] d IH]; cbn; [tauto|].
  destruct (String.eqb_spec k0 key) as [->|Hne]; cbn.
  - intros [[= -> ->]|Hin]; [congruence|auto].
  - intros [Heq|Hin]; auto.
Qed.

Lemma dict_set_keys (key value : string) (d : list (string * string))
    (k : string) :
  In k (map fst (dict_set key value d)) <-> k = key \/ In k (map fst d).
Proof.
  induction d as [|[k0 v0] d IH]; cbn.
  - intuition congruence.
  - destruct (String.eqb_spec k0 key) as [->|Hne]; cbn.
    + intuition congruence.
    + rewrite IH. intuition congruence.
Qed.

Lemma dict_set_NoDup (key value : string) (d : list (string * string)) :
  List.NoDup (map fst d) -> List.NoDup (map fst (dict_set key value d)).
Proof.
  induction d as [|[k0 v0] d IH]; cbn; intros Hnd.
  - constructor; [intros []|constructor].
  - destruct (String.eqb_spec k0 key) as [->|Hne]; cbn; [exact Hnd|].
    inversion Hnd as [|? ? Hnotin Hnd']; subst.
    constructor; [|apply IH, Hnd'].
    rewrite dict_set_keys. intros [?|?]; [congruence|auto].
Qed.

Lemma build_metadata_In (items : list (string * PyVal))
    (acc : list (string * string)) (k s : string) :
  In (k, s) (build_metadata items acc) ->
  In (k, s) acc
  \/ exists v, In (k, v) items /\ str v = Some s
               /\ key_in k reserved_keys = false.
Proof.
  revert acc. induction items as [|[key value] items IH]; intros acc;
    cbn [build_metadata map fst In].
  - auto.
  - destruct (key_in key reserved_keys) eqn:Hres.
    + intros Hin. destruct (IH _ Hin) as [?|(v & ? & ? & ?)]; eauto 6.
    + destruct (str value) as [shown|] eqn:Hstr.
      * intros Hin. destruct (IH _ Hin) as [Hacc|(v & ? & ? & ?)];
          [|eauto 6].
        destruct (dict_set_In _ _ _ _ _ Hacc) as [[-> ->]|?]; eauto 6.
      * intros Hin. destruct (IH _ Hin) as [?|(v & ? & ? & ?)]; eauto 6.
Qed.

Lemma build_metadata_keeps (items : list (string * PyVal))
    (acc : list (string * string)) (k s : string) :
  In (k, s) acc -> ~ In k (map fst items) ->
  In (k, s) (build_metadata items acc).
Proof.
  revert acc. induction items as [|[key value] items IH]; intros acc;
    cbn [build_metadata map fst In].
  - auto.
  - intros Hacc Hnot.
    assert (Hk : k <> key) by (intros ->; apply Hnot; auto).
    assert (Hrest : ~ In k (map fst items)) by (intros ?; apply Hnot; auto).
    destruct (key_in key reserved_keys); [apply IH; assumption|].
    destruct (str value); apply IH; try assumption.
    apply dict_set_other; assumption.
Qed.

Lemma build_metadata_NoDup (items : list (string * PyVal))
    (acc : list (string * string)) :
  List.NoDup (map fst acc) ->
  List.NoDup (map fst (build_metadata items acc)).
Proof.
  revert acc. induction items as [|[key value] items IH]; intros acc;
    cbn [build_metadata map fst In].
  - auto.
  - intros Hnd. destruct (key_in key reserved_keys); [apply IH, Hnd|].
    destruct (str value); apply IH; [apply dict_set_NoDup|]; exact Hnd.
Qed.

Lemma _format_record_eq (record : LogRecord) (st : State) :
  _format_record record st =
    (match format_row (hostname st) record with
     | inl row => Ret row
     | inr e => Raise e
     end, st).
Proof.
  unfold _format_record, format_row.
  destruct (exc_info record); unfold_m;
    destruct (getMessage record); reflexivity.
Qed.

(** X1: the metadata dict of a formatted row holds no key that has a
    column of its own or is a standard record attribute; every entry is
    the [str()] of an attribute of the record; and no key occurs
    twice. *)
Theorem metadata_holds_only_extra_attributes
    (record : LogRecord) (st st' : State) (row : Row)
    (d : list (string * string)) :
  _format_record record st = (Ret row, st') ->
  metadata row = MetaDict d ->
  d <> []
  /\ List.NoDup (map fst d)
  /\ forall k s,
       In (k, s) d ->
       ~ In k reserved_keys
       /\ exists v, In (k, v) (__dict__ record) /\ str v = Some s.
Proof.
  rewrite _format_record_eq. unfold format_row.
  destruct (getMessage record) as [msg|e]; [|discriminate].
  intros [= <- <-]. cbn [metadata].
  destruct (build_metadata (__dict__ record) []) as [|entry rest] eqn:Hb;
    [discriminate|].
  rewrite <- Hb. intros [= <-].
  split; [rewrite Hb; discriminate|].
  split; [apply build_metadata_NoDup; constructor|].
  intros k s Hin.
  destruct (build_metadata_In _ _ _ _ Hin) as [[]|(v & Hv & Hs & Hres)].
  split; [|eauto].
  rewrite <- key_in_true, Hres. discriminate.
Qed.

Lemma metadata_holds_only_extra_attributes_witness :
  let record := Demo.record "app" 7 (inl "hello") in
  let d := [("attempt", "3")] in
  d <> []
  /\ List.NoDup (map fst d)
  /\ forall k s,
       In (k, s) d ->
       ~ In k reserved_keys
       /\ exists v, In (k, v) (__dict__ record) /\ str v = Some s.
Proof.
  intros record d.
  apply (metadata_holds_only_extra_attributes record Demo.handler
           Demo.handler (sample_row "hello") d).
  - vm_compute. reflexivity.
  - reflexivity.
Defined.

(** X2: when the attribute names of a record are distinct, every
    attribute that has no column of its own and whose [str()] does not
    raise is in the metadata of the row under its name; attributes whose
    [str()] raises are left out without failing the formatting. *)
Theorem metadata_holds_every_extra_attribute
    (record : LogRecord) (st st' : State) (row : Row) (k s : string)
    (v : PyVal) :
  List.NoDup (map fst (__dict__ record)) ->
  _format_record record st = (Ret row, st') ->
  In (k, v) (__dict__ record) ->
  ~ In k reserved_keys ->
  str v = Some s ->
  exists d, metadata row = MetaDict d /\ In (k, s) d.
Proof.
  intros Hnd. rewrite _format_record_eq. unfold format_row.
  destruct (getMessage record) as [msg|e]; [|discriminate].
  intros [= <- <-] Hin Hres Hstr. cbn [metadata].
  assert (Hkey : key_in k reserved_keys = false).
  { destruct (key_in k reserved_keys) eqn:E; [|reflexivity].
    apply key_in_true in E. contradiction. }
  assert (Hgoal : In (k, s) (build_metadata (__dict__ record) [])).
  { revert Hnd Hin. generalize (@nil (string * string)).
    induction (__dict__ record) as [|[key value] items IH];
      intros acc Hnd Hin; [destruct Hin|].
    cbn in Hnd. inversion Hnd as [|? ? Hnotin Hnd']; subst.
    destruct Hin as [[= -> ->]|Hin]; cbn [build_metadata].
    - rewrite Hkey, Hstr.
      apply build_metadata_keeps; [apply dict_set_same|exact Hnotin].
    - destruct (key_in key reserved_keys); [apply IH; assumption|].
      destruct (str value); apply IH; assumption. }
  destruct (build_metadata (__dict__ record) []) as [|entry rest] eqn:Hb;
    [destruct Hgoal|].
  rewrite <- Hb. eexists. split; [reflexivity|rewrite Hb; exact Hgoal].
Qed.

Lemma metadata_holds_every_extra_attribute_witness :
  exists d,
    metadata (sample_row "hello") = MetaDict d /\ In ("attempt", "3") d.
Proof.
  apply (metadata_holds_every_extra_attribute
           (Demo.record "app" 7 (inl "hello")) Demo.handler Demo.handler
           (sample_row "hello") "attempt" "3" (PyInt 3)).
  - vm_compute. repeat constructor; cbn; intuition discriminate.
  - vm_compute. reflexivity.
  - cbn. auto.
  - cbn. intuition discriminate.
  - reflexivity.
Defined.

(** ** The paths of a flush *)



(** X4: without a connection and with the reconnect refused, a flush
    gives the batch up: one [connect] call is made, nothing is handed to
    the connector, the batch is emptied, the connection stays absent and
    the last thing logged is the warning that counts the rows lost. *)
Theorem flush_without_sink_drops_batch (env : Env) (st : State) :
  batch st <> [] ->
  connection st = None ->
  connect_reply env (connects st) = false ->
  exists st',
    _flush_batch env st = (Ret tt, st')
    /\ batch st' = []
    /\ connection st' = None
    /\ connects st' = S (connects st)
    /\ executions (trace st') = executions (trace st)
    /\ flushes st' = flushes st
    /\ last (trace st')
       = Some (Log WARNING (CannotFlush (length (batch st)))).
Proof.
  intros Hb Hc Hreply. exists (after_flush env st).
  split; [apply _flush_batch_eq|].
  unfold after_flush. destruct (batch st) as [|row rows] eqn:Hrows;
    [congruence|].
  rewrite <- Hrows, Hc, Hreply. cbn.
  rewrite !executions_app, last_app. cbn. rewrite !app_nil_r.
  repeat split.
Qed.

Lemma flush_without_sink_drops_batch_witness :
  let st := set_batch [Demo.row "a"; Demo.row "b"] Demo.handler in
  exists st',
    _flush_batch Demo.env st = (Ret tt, st')
    /\ batch st' = []
    /\ connection st' = None
    /\ connects st' = S (connects st)
    /\ executions (trace st') = executions (trace st)
    /\ flushes st' = flushes st
    /\ last (trace st')
       = Some (Log WARNING (CannotFlush (length (batch st)))).
Proof.
  intros st. apply (flush_without_sink_drops_batch Demo.env st).
  - discriminate.
  - reflexivity.
  - reflexivity.
Defined.

(** X5: when the call that opens the cursor raises, the batch is lost
    before any row was handed to the connector, and the connection is
    dropped; when only the closing of the cursor raises, the rows have
    been handed over, and the connection is dropped all the same. *)
Theorem cursor_failures_drop_the_connection
    (env : Env) (st : State) (c : Conn) :
  batch st <> [] ->
  connection st = Some c ->
  sink_reply env (flushes st) = CursorRaises
  \/ sink_reply env (flushes st) = CloseRaises ->
  exists st',
    _flush_batch env st = (Ret tt, st')
    /\ batch st' = []
    /\ connection st' = None
    /\ last (trace st') = Some (Log ERROR (FailedToFlush DatabaseError))
    /\ executions (trace st')
       = executions (trace st)
         ++ match sink_reply env (flushes st) with
            | CursorRaises => []
            | _ => [map (dump_metadata env) (batch st)]
            end.
Proof.
  intros Hb Hc Hsink. exists (after_flush env st).
  split; [apply _flush_batch_eq|].
  unfold after_flush. destruct (batch st) as [|row rows] eqn:Hrows;
    [congruence|].
  rewrite <- Hrows, Hc. unfold after_flush_try.
  destruct Hsink as [-> | ->]; cbn;
    rewrite executions_app, last_app; cbn; repeat split.
Qed.

Lemma cursor_failures_drop_the_connection_witness :
  let env :=
    {| SNOWFLAKE_AVAILABLE := true; gethostname := "worker-host";
       connect_reply := fun _ => true;
       sink_reply := fun _ => CursorRaises;
       json_dumps := fun _ => "{}" |} in
  let st := set_connection (Some O) (set_batch [Demo.row "a"] Demo.handler) in
  exists st',
    _flush_batch env st = (Ret tt, st')
    /\ batch st' = []
    /\ connection st' = None
    /\ last (trace st') = Some (Log ERROR (FailedToFlush DatabaseError))
    /\ executions (trace st') = executions (trace st) ++ [].
Proof.
  intros env st. apply (cursor_failures_drop_the_connection env st O).
  - discriminate.
  - reflexivity.
  - left. reflexivity.
Defined.

(** ** Runs of the handler's threads *)

(** A dequeue attempt, case by case. *)
Lemma dequeue_eq (st : State) :
  dequeue st =
    match Queue.queue (log_queue st) with
    | [] => (Ret tt, st)
    | record :: rest =>
        let popped (n : nat) :=
          {| Queue.maxsize := Queue.maxsize (log_queue st);
             Queue.queue := rest; Queue.unfinished_tasks := n |} in
        let n := Queue.unfinished_tasks (log_queue st) in
        match format_row (hostname st) record with
        | inr e =>
            (if bool_decide (e = Empty) then Ret tt else Raise e,
             set_log_queue (popped n) st)
        | inl row =>
            match n with
            | O =>
                (Raise ValueError,
                 set_batch (batch st ++ [row]) (set_log_queue (popped n) st))
            | S m =>
                (Ret tt,
                 set_log_queue (popped m)
                   (set_batch (batch st ++ [row])
                      (set_log_queue (popped n) st)))
            end
        end
    end.
Proof.
  unfold dequeue, Queue.get, Queue.task_done. unfold_m. cbn.
  destruct (Queue.queue (log_queue st)) as [|record rest]; cbn;
    [reflexivity|].
  rewrite _format_record_eq. cbn [hostname set_log_queue].
  destruct (format_row (hostname st) record) as [row|e]; cbn.
  - destruct (Queue.unfinished_tasks (log_queue st)); reflexivity.
  - unfold only. destruct (bool_decide (e = Empty)); reflexivity.
Qed.

Lemma dequeue_counted (st st1 : State) (o : Outcome unit) :
  dequeue st = (o, st1) -> counted st -> counted st1.
Proof.
  rewrite dequeue_eq. unfold counted.
  destruct (Queue.queue (log_queue st)) as [|record rest] eqn:Hq.
  - intros [= <- <-]. rewrite Hq. auto.
  - cbn zeta. cbn [length].
    destruct (format_row (hostname st) record) as [row|e].
    + destruct (Queue.unfinished_tasks (log_queue st)) as [|m];
        intros [= <- <-]; cbn; lia.
    + intros [= <- <-]. cbn. lia.
Qed.

Lemma after_flush_log_queue (env : Env) (st : State) :
  log_queue (after_flush env st) = log_queue st.
Proof.
  unfold after_flush, after_flush_try.
  destruct (batch st); [reflexivity|].
  destruct (connection st).
  - destruct (sink_reply env (flushes st)); reflexivity.
  - destruct (connect_reply env (connects st)); [|reflexivity].
    cbn [flushes after_connect_ok set_trace set_connection set_connects].
    destruct (sink_reply env (flushes st)); reflexivity.
Qed.

(** A pass of the loop returns, whatever happens in it. *)
Lemma iteration_returns (env : Env) (now lf : Q) (st : State) :
  exists step st',
    iteration env now lf st = (Ret step, st')
    /\ (counted st -> counted st').
Proof.
  unfold iteration, try_except. rewrite iteration_body_eq.
  destruct (dequeue_frame st) as (o & st1 & Hd & Hnb & _ & _).
  rewrite Hd. pose proof (dequeue_counted _ _ _ Hd) as Hc.
  destruct o as [[]|e|]; [| |congruence].
  - destruct (should_flush st1 now lf).
    + rewrite _flush_batch_eq. do 2 eexists. split; [reflexivity|].
      intros H. unfold counted in *. cbn.
      rewrite after_flush_log_queue. auto.
    + do 2 eexists. split; [reflexivity|]. exact Hc.
  - cbn. unfold_m. cbn. do 2 eexists. split; [reflexivity|]. exact Hc.
Qed.

Lemma act_returns (env : Env) (a : Action) (st : State) :
  exists st', act env a st = (Ret tt, st') /\ (counted st -> counted st').
Proof.
  destruct a as [record|now| |]; cbn [act].
  - rewrite emit_eq. eexists. split; [reflexivity|].
    unfold after_emit, Queue.put_nowait, Queue.put, counted.
    destruct (String.prefix "snowflake" (name record)); [auto|].
    destruct (Queue.full (log_queue st)); [auto|].
    cbn. rewrite length_app. cbn. lia.
  - unfold _worker. unfold bind at 1. unfold bind at 1. unfold get at 1.
    destruct (worker_thread st) as [| |lf|].
    + unfold_m. eauto.
    + unfold_m. cbn. eauto.
    + unfold bind at 1. unfold get at 1. destruct (running st).
      * destruct (iteration_returns env now lf st) as (step & st' & -> & Hc).
        unfold ret. eauto.
      * unfold_m. cbn. eauto.
    + unfold_m. eauto.
  - unfold close_stop. unfold_m. cbn. eauto.
  - unfold close_finish. unfold bind at 1. rewrite _flush_batch_eq.
    unfold_m. unfold counted.
    destruct (connection (after_flush env st)); eexists;
      (split; [reflexivity|]); cbn; rewrite after_flush_log_queue; auto.
Qed.

(** X6: from construction on, no step of any thread raises to its
    caller or waits: every interleaving of submissions, worker passes
    and the two halves of [close] runs to its end, and throughout the
    queue counts at least as many unfinished tasks as it holds records,
    so [task_done] is never called once too often. *)
Theorem runs_never_raise
    (env : Env) (args : Args.t) (st0 : State) (actions : list Action) :
  __init__ env args = Ret st0 ->
  exists st,
    run env actions st0 = (Ret tt, st) /\ counted st.
Proof.
  intros Hinit.
  assert (H0 : counted st0).
  { rewrite __init___eq in Hinit.
    destruct (SNOWFLAKE_AVAILABLE env); [|discriminate].
    destruct (truthy (Args.password args) || truthy (Args.token args));
      [|discriminate].
    injection Hinit as <-. unfold counted.
    destruct (after_init_shape env args) as (-> & _). cbn. lia. }
  clear Hinit. revert st0 H0.
  induction actions as [|a actions IH]; intros st0 H0; cbn [run].
  - unfold ret. eauto.
  - unfold bind at 1.
    destruct (act_returns env a st0) as (st1 & -> & Hc).
    apply IH, Hc, H0.
Qed.

Lemma runs_never_raise_witness :
  exists st,
    run Demo.env
      [Submit (Demo.record "app" 7 (inr TypeError)); Work 0; Work 1;
       Stop; Work 2; Finish]
      (after_init Demo.env (Demo.args (Some "pw") None)) = (Ret tt, st)
    /\ counted st.
Proof.
  apply (runs_never_raise Demo.env (Demo.args (Some "pw") None)).
  reflexivity.
Defined.

(** ** Shutdown *)




(** ** From submission to delivery *)

Lemma run_app (env : Env) (a b : list Action) (st : State) :
  run env (a ++ b) st =
    match run env a st with
    | (Ret _, st') => run env b st'
    | r => r
    end.
Proof.
  revert st. induction a as [|x a IH]; intros st; cbn [app run].
  - reflexivity.
  - unfold bind.
    destruct (act_returns env x st) as (st1 & -> & _). apply IH.
Qed.








(** A pass over an empty queue that trips neither threshold changes
    nothing at all. *)
Lemma idle_pass_is_silent (env : Env) (st : State) (now lf : Q) :
  worker_thread st = Looping lf ->
  running st = true ->
  Queue.queue (log_queue st) = [] ->
  should_flush st now lf = false ->
  act env (Work now) st = (Ret tt, st).
Proof.
  intros Hw Hr Hq Hno. cbn [act]. unfold bind at 1.
  rewrite (_worker_looping env now lf st Hw Hr).
  unfold iteration, try_except.
  rewrite iteration_body_eq, (dequeue_timeout st Hq), Hno. reflexivity.
Qed.

(** X9: the time trigger.  With rows waiting, fewer than
    [batch_size], an empty queue and a healthy connection, the passes
    made before [flush_interval] has run out since the last flush change
    nothing; the first pass at or after it hands the waiting rows to the
    connector in one call, empties the batch and restarts the timer at
    the time of that pass. *)
Theorem time_trigger_delivers_waiting_rows
    (env : Env) (st : State) (lf now : Q) (c : Conn) (early : list Q) :
  worker_thread st = Looping lf ->
  running st = true ->
  batch st <> [] ->
  Z.of_nat (length (batch st)) < batch_size st ->
  Queue.queue (log_queue st) = [] ->
  Forall (fun t => ~ (flush_interval st <= t - lf)%Q) early ->
  (flush_interval st <= now - lf)%Q ->
  connection st = Some c ->
  sink_reply env (flushes st) = SinkOk ->
  run env (map Work early) st = (Ret tt, st)
  /\ exists st',
       run env (map Work (early ++ [now])) st = (Ret tt, st')
       /\ executions (trace st')
          = executions (trace st) ++ [map (dump_metadata env) (batch st)]
       /\ batch st' = []
       /\ connection st' = Some c
       /\ worker_thread st' = Looping now.
Proof.
  intros Hw Hr Hb Hsize Hq Hearly Hnow Hc Hsink.
  assert (Hidle : run env (map Work early) st = (Ret tt, st)).
  { induction Hearly as [|t ts Ht _ IH]; [reflexivity|].
    cbn [map run]. unfold bind at 1.
    rewrite (idle_pass_is_silent env st t lf Hw Hr Hq); [exact IH|].
    unfold should_flush.
    replace (batch_size st <=? Z.of_nat (length (batch st))) with false
      by (symmetry; apply Z.leb_gt; exact Hsize).
    cbn [orb]. apply andb_false_iff. right.
    destruct (Qle_bool (flush_interval st) (t - lf)) eqn:E; [|reflexivity].
    apply Qle_bool_iff in E. contradiction. }
  split; [exact Hidle|].
  rewrite map_app, run_app, Hidle. cbn [map run]. unfold bind at 1.
  cbn [act]. unfold bind at 1.
  rewrite (_worker_looping env now lf st Hw Hr).
  unfold iteration, try_except.
  rewrite iteration_body_eq, (dequeue_timeout st Hq).
  assert (Hgo : should_flush st now lf = true).
  { apply should_flush_iff. right. split; assumption. }
  rewrite Hgo, _flush_batch_eq. unfold ret. cbn [snd].
  eexists. split; [reflexivity|].
  unfold after_flush. destruct (batch st) as [|row rows] eqn:Hrows;
    [congruence|].
  rewrite <- Hrows, Hc. unfold after_flush_try. rewrite Hsink. cbn.
  rewrite executions_app. cbn. repeat split. exact Hc.
Qed.

Lemma time_trigger_delivers_waiting_rows_witness :
  let st :=
    set_flushes 1
      (set_connection (Some 2%nat) (Demo.looping [Demo.row "a"] [])) in
  run Demo.env (map Work [1%Q; 3%Q]) st = (Ret tt, st)
  /\ exists st',
       run Demo.env (map Work ([1%Q; 3%Q] ++ [6%Q])) st = (Ret tt, st')
       /\ executions (trace st')
          = executions (trace st)
            ++ [map (dump_metadata Demo.env) (batch st)]
       /\ batch st' = []
       /\ connection st' = Some 2%nat
       /\ worker_thread st' = Looping 6.
Proof.
  intros st.
  apply (time_trigger_delivers_waiting_rows Demo.env st 0 6 2%nat
           [1%Q; 3%Q]).
  - reflexivity.
  - reflexivity.
  - discriminate.
  - cbn. lia.
  - reflexivity.
  - repeat constructor; cbn; intros H; vm_compute in H; apply H; reflexivity.
  - vm_compute. discriminate.
  - reflexivity.
  - reflexivity.
Defined.

(** ** Configuration from the environment *)

Section ConfigureFacts.

Variable env : Env.
Variable int : string -> option Z.
Variable float : string -> option Q.


(** X11: the two numeric settings are parsed outside the [try]
    statement and after the four checks: when a check fails the function
    returns [False] without parsing anything, and when all pass a batch
    size or flush interval that does not parse raises [ValueError] to the
    caller, with no handler built. *)
Theorem configure_raises_on_unparsable_numbers
    (environ : gmap string string) :
  let r := Configure.configure_snowflake_logging env int float environ in
  let checks :=
    String.eqb
      (Configure.lower (default "false" (environ !! "SNOWFLAKE_ENABLED")))
      "true"
    && SNOWFLAKE_AVAILABLE env
    && truthy (environ !! "SNOWFLAKE_ACCOUNT")
    && truthy (environ !! "SNOWFLAKE_USER")
    && (truthy (environ !! "SNOWFLAKE_PASSWORD")
        || truthy (environ !! "SNOWFLAKE_TOKEN")) in
  if checks then
    (int (default "100" (environ !! "SNOWFLAKE_BATCH_SIZE")) = None
     \/ float (default "5.0" (environ !! "SNOWFLAKE_FLUSH_INTERVAL")) = None
     <-> Configure.returned r = Raise ValueError)
    /\ (Configure.returned r = Raise ValueError ->
        Configure.added r = None /\ Configure.logged r = [])
  else
    Configure.returned r = Ret false /\ Configure.added r = None.
Proof.
  unfold Configure.configure_snowflake_logging.
  destruct (String.eqb
              (Configure.lower
                 (default "false" (environ !! "SNOWFLAKE_ENABLED")))
              "true"); cbn [negb andb]; [|auto].
  destruct (SNOWFLAKE_AVAILABLE env) eqn:Hav; cbn [negb andb]; [|auto].
  destruct (truthy (environ !! "SNOWFLAKE_ACCOUNT")); cbn [negb andb orb];
    [|auto].
  destruct (truthy (environ !! "SNOWFLAKE_USER")); cbn [negb andb orb];
    [|auto].
  destruct (truthy (environ !! "SNOWFLAKE_PASSWORD")) eqn:Hpw,
           (truthy (environ !! "SNOWFLAKE_TOKEN")) eqn:Htok;
    cbn [negb andb orb]; [| | |auto].
  all: destruct (int (default "100" (environ !! "SNOWFLAKE_BATCH_SIZE")))
         as [b|]; [|cbn; intuition].
  all: destruct (float (default "5.0" (environ !! "SNOWFLAKE_FLUSH_INTERVAL")))
         as [f|]; [|cbn; intuition].
  all: rewrite __init___eq, Hav; cbn [negb Configure.handler_args
         Args.password Args.token]; rewrite Hpw, Htok; cbn.
  all: intuition congruence.
Qed.

End ConfigureFacts.

(** An enabled configuration against a remote end that refuses the
    connection: the function still returns [True], the handler is added
    with no connection; an unparsable batch size raises. *)
Example configure_with_unreachable_sink :
  let int := fun s => if String.eqb s "100" then Some 100 else None in
  let float := fun s => if String.eqb s "5.0" then Some 5%Q else None in
  let environ : gmap string string :=
    {[ "SNOWFLAKE_ENABLED" := "True"; "SNOWFLAKE_ACCOUNT" := "acct";
       "SNOWFLAKE_USER" := "svc"; "SNOWFLAKE_TOKEN" := "tok" ]} in
  let r := Configure.configure_snowflake_logging Demo.env int float environ in
  Configure.returned r = Ret true
  /\ (connection <$> Configure.added r) = Some None
  /\ Configure.returned
       (Configure.configure_snowflake_logging Demo.env int float
          (<["SNOWFLAKE_BATCH_SIZE" := "many"]> environ))
     = Raise ValueError.
Proof. repeat split; vm_compute; reflexivity. Qed.
